(** * The probe controller (assistant/probes/controller.py)

    A shallow embedding of [ProbeController]: the registry of probes
    ([__probe_index]), the index of callable functions ([__function_index]),
    the two lookups, [function_list] and [function_call], followed by the
    properties of the controller that its specification states.

    Python's effects are explicit here.  Both indexes are class attributes,
    so they live in one store shared by every instance of the class; a
    method is a function from that store to an outcome (a returned value or a
    raised exception) and the store it leaves behind. *)

From Stdlib Require Import List String Ascii.
Import ListNotations.
Local Open Scope string_scope.

(** ** What the controller does not look into

    The controller treats four kinds of Python values as opaque: the
    environment its probes reach out into, the argument dict of a call, the
    dict that defines a callable function (of which it reads the key
    ['name'] only) and every exception that is not one of its own two. *)
Class Environment : Type := {
  World : Type;
  Args : Type;
  FuncDef : Type;
  Foreign : Type;
  (** [d['name']] of a function definition [d] *)
  func_name : FuncDef -> string;
  (** [str(function_args)], as [str.format] renders the dict *)
  str_args : Args -> string
}.

Section Model.

Context `{Environment}.

(** ** Exceptions *)

(** [FunctionNotFoundError(a)] and [ProbeNotFoundError(a)] carry the one
    argument of their constructor call; any other exception is foreign. *)
Inductive exception : Type :=
| FunctionNotFoundError (a : string)
| ProbeNotFoundError (a : string)
| OtherError (x : Foreign).

(** The attribute [msg] that the two [__init__] methods set. *)
Definition msg (e : exception) : option string :=
  match e with
  | FunctionNotFoundError a => Some ("Probe callable function not found: " ++ a)
  | ProbeNotFoundError a => Some ("Probe not found: " ++ a)
  | OtherError _ => None
  end.

(** [str(err)] for the controller's two exceptions.  Neither class defines
    [__str__] and neither [__init__] calls the one of [Exception], so the
    text is [BaseException.__str__] of the [args] that
    [BaseException.__new__] recorded: with one argument, that argument. *)
Definition str_lookup_error (a : string) : string := a.

Inductive outcome (A : Type) : Type :=
| Return (a : A)
| Raise (e : exception).

Arguments Return {A} a.
Arguments Raise {A} e.

(** ** Probes, index entries and the store *)

(** An item of [__probe_index].  The two hooks are Python callables: they
    may read and change the environment, and they may raise. *)
Record Probe : Type := {
  name : string;
  list_function : World -> outcome (list FuncDef) * World;
  call_function : string -> Args -> World -> outcome string * World
}.

(** An item of [__function_index]. *)
Record Entry : Type := {
  probe : string;
  function : FuncDef
}.

(** What a run leaves behind for an observer, oldest first: each call of a
    probe's [call_function] hook, each [logger.debug] record and each line
    written by [print]. *)
Inductive event : Type :=
| Called (p : string) (f : string) (a : Args)
| Debug (m : string)
| Printed (m : string).

Record state : Type := {
  probe_index : list Probe;
  function_index : list Entry;
  world : World;
  trace : list event
}.

Definition set_function_index (l : list Entry) (st : state) : state :=
  {| probe_index := probe_index st; function_index := l;
     world := world st; trace := trace st |}.

Definition set_world (w : World) (st : state) : state :=
  {| probe_index := probe_index st; function_index := function_index st;
     world := w; trace := trace st |}.

Definition emit (e : event) (st : state) : state :=
  {| probe_index := probe_index st; function_index := function_index st;
     world := world st; trace := trace st ++ [e] |}.

(** ** The monad of methods *)

Definition M (A : Type) : Type := state -> outcome A * state.

Definition ret {A} (a : A) : M A := fun st => (Return a, st).

Definition raise {A} (e : exception) : M A := fun st => (Raise e, st).

Definition bind {A B} (m : M A) (k : A -> M B) : M B :=
  fun st =>
    match m st with
    | (Return a, st') => k a st'
    | (Raise e, st') => (Raise e, st')
    end.

(** [try: body except ...: handler]; a handler of [None] is an exception
    that no [except] clause names, which goes on to the caller. *)
Definition try_except {A} (body : M A) (handler : exception -> option (M A)) : M A :=
  fun st =>
    match body st with
    | (Return a, st') => (Return a, st')
    | (Raise e, st') =>
        match handler e with
        | Some h => h st'
        | None => (Raise e, st')
        end
    end.

End Model.

Arguments Return {_ A} a.
Arguments Raise {_ A} e.

Declare Scope method_scope.
Delimit Scope method_scope with method.
Notation "x <- m ;; k" := (bind m (fun x => k))
  (at level 61, m at next level, right associativity) : method_scope.
Notation "m ;; k" := (bind m (fun _ => k))
  (at level 61, right associativity) : method_scope.

Section Controller.

Context `{Environment}.
Local Open Scope method_scope.

(** ** Primitive steps *)

(** [self.__function_index.append(e)]: the list is the class attribute, the
    instance has none of its own. *)
Definition append_function_index (e : Entry) : M unit :=
  fun st => (Return tt, set_function_index (function_index st ++ [e]) st).

(** [p['list_function']()] *)
Definition do_list (p : Probe) : M (list FuncDef) :=
  fun st => let (r, w) := list_function p (world st) in (r, set_world w st).

(** [p['call_function'](f, a)] *)
Definition do_call (p : Probe) (f : string) (a : Args) : M string :=
  fun st =>
    let (r, w) := call_function p f a (world st) in
    (r, set_world w (emit (Called (name p) f a) st)).

(** [logger.debug(m)] *)
Definition debug (m : string) : M unit := fun st => (Return tt, emit (Debug m) st).

(** [print(m)] *)
Definition print (m : string) : M unit := fun st => (Return tt, emit (Printed m) st).

Definition nl : string := String (ascii_of_nat 10) EmptyString.

(** ['Calling {0}.{1}():\n{2}'.format(p, f, a)] *)
Definition calling_message (p f : string) (a : Args) : string :=
  "Calling " ++ p ++ "." ++ f ++ "():" ++ nl ++ str_args a.

(** ['Function result: {0}.{1}()\n{2}'.format(p, f, r)] *)
Definition result_message (p f r : string) : string :=
  "Function result: " ++ p ++ "." ++ f ++ "()" ++ nl ++ r.

(** ** [__init__] *)

(** The inner loop, over the list one probe returned. *)
Fixpoint init_functions (pname : string) (funcs : list FuncDef) : M unit :=
  match funcs with
  | [] => ret tt
  | probe_func :: rest =>
      append_function_index {| probe := pname; function := probe_func |} ;;
      init_functions pname rest
  end.

(** The outer loop, over [__probe_index]. *)
Fixpoint init_probes (probes : list Probe) : M unit :=
  match probes with
  | [] => ret tt
  | p :: rest =>
      funcs <- do_list p ;;
      init_functions (name p) funcs ;;
      init_probes rest
  end.

Definition __init__ : M unit :=
  fun st => init_probes (probe_index st) st.

(** ** The two lookups *)

Fixpoint get_probe_from (probes : list Probe) (nm : string) : M Probe :=
  match probes with
  | [] => raise (ProbeNotFoundError nm)
  | p :: rest => if String.eqb (name p) nm then ret p else get_probe_from rest nm
  end.

Definition __get_probe (nm : string) : M Probe :=
  fun st => get_probe_from (probe_index st) nm st.

Fixpoint get_function_from (funcs : list Entry) (nm : string) : M Entry :=
  match funcs with
  | [] => raise (FunctionNotFoundError nm)
  | func :: rest =>
      if String.eqb (func_name (function func)) nm then ret func
      else get_function_from rest nm
  end.

Definition __get_function (nm : string) : M Entry :=
  fun st => get_function_from (function_index st) nm st.

(** ** [function_list] *)

Fixpoint function_list_from (probes : list Probe) (return_list : list FuncDef)
  : M (list FuncDef) :=
  match probes with
  | [] => ret return_list
  | p :: rest =>
      l <- do_list p ;;
      function_list_from rest (return_list ++ l)
  end.

Definition function_list : M (list FuncDef) :=
  fun st => function_list_from (probe_index st) [] st.

(** ** [function_call] *)

(** The body of the [try] once both lookups have returned. *)
Definition call_probe (probe_function : Entry) (p : Probe)
    (function_name : string) (function_args : Args) : M (option string) :=
  debug (calling_message (name p) function_name function_args) ;;
  probe_result <- do_call p function_name function_args ;;
  debug (result_message (name p) (func_name (function probe_function)) probe_result) ;;
  ret (Some probe_result).

(** The two [except] clauses: each prints the exception and returns [None]. *)
Definition lookup_handler (err : exception) : option (M (option string)) :=
  match err with
  | FunctionNotFoundError a => Some (print (str_lookup_error a) ;; ret None)
  | ProbeNotFoundError a => Some (print (str_lookup_error a) ;; ret None)
  | OtherError _ => None
  end.

Definition function_call (function_name : string) (function_args : Args)
  : M (option string) :=
  try_except
    (probe_function <- __get_function function_name ;;
     p <- __get_probe (probe probe_function) ;;
     call_probe probe_function p function_name function_args)
    lookup_handler.

End Controller.

(** ** Vocabulary of the properties *)

Section Vocabulary.

Context `{Environment}.
Local Open Scope list_scope.

(** The tests of the two lookup loops. *)
Definition names_function (nm : string) (e : Entry) : bool :=
  String.eqb (func_name (function e)) nm.

Definition names_probe (nm : string) (p : Probe) : bool :=
  String.eqb (name p) nm.

(** The entries one probe contributes, and the index a registry yields when
    probe [p] lists [listing p]. *)
Definition entries_of (pname : string) (funcs : list FuncDef) : list Entry :=
  map (fun d => {| probe := pname; function := d |}) funcs.

Definition index_of (listing : Probe -> list FuncDef) (probes : list Probe) : list Entry :=
  flat_map (fun p => entries_of (name p) (listing p)) probes.

(** A listing hook is pure when it returns the same list in every
    environment and leaves the environment as it found it. *)
Definition pure_listing (listing : Probe -> list FuncDef) (probes : list Probe) : Prop :=
  forall p, In p probes -> forall w, list_function p w = (Return (listing p), w).

(** The names a probe advertises, and two lists that share none. *)
Definition advertised (listing : Probe -> list FuncDef) (p : Probe) : list string :=
  map func_name (listing p).

Definition disjoint (l1 l2 : list string) : Prop :=
  forall x, In x l1 -> ~ In x l2.

(** The exceptions that [function_call] has an [except] clause for. *)
Definition is_lookup_error (e : exception) : bool :=
  match e with
  | FunctionNotFoundError _ | ProbeNotFoundError _ => true
  | OtherError _ => false
  end.

(** What [function_call] makes of the outcome of an execution hook: the
    string it returns is returned, an exception that has an [except] clause
    becomes [None], any other exception goes on to the caller. *)
Definition relayed (out : outcome string) : outcome (option string) :=
  match out with
  | Return s => Return (Some s)
  | Raise ex => if is_lookup_error ex then Return None else Raise ex
  end.

(** The store as the hook of [p] sees it and leaves it: the first debug
    record is out, the call is on the trace, the environment is the hook's. *)
Definition entered (p : Probe) (nm : string) (args : Args) (w : World) (st : state) : state :=
  set_world w
    (emit (Called (name p) nm args)
       (emit (Debug (calling_message (name p) nm args)) st)).

(** The calls of execution hooks that a trace records, oldest first. *)
Definition calls (t : list event) : list (string * string * Args) :=
  flat_map (fun ev => match ev with Called p f a => [(p, f, a)] | _ => [] end) t.

(** The stores of a process that has constructed a controller at least
    once.  The first construction starts from the empty index of the class
    body; after it come further constructions, listings and calls, whatever
    their outcome, and changes of the environment that are not the
    controller's doing. *)
Inductive constructed : state -> Prop :=
| constructed_first (st0 : state) (r : outcome unit) (st : state) :
    function_index st0 = [] -> __init__ st0 = (r, st) -> constructed st
| constructed_again (st : state) (r : outcome unit) (st' : state) :
    constructed st -> __init__ st = (r, st') -> constructed st'
| constructed_list (st : state) (r : outcome (list FuncDef)) (st' : state) :
    constructed st -> function_list st = (r, st') -> constructed st'
| constructed_call (st : state) (nm : string) (args : Args)
    (r : outcome (option string)) (st' : state) :
    constructed st -> function_call nm args st = (r, st') -> constructed st'
| constructed_world (st : state) (w : World) :
    constructed st -> constructed (set_world w st).

End Vocabulary.

(** ** A concrete deployment

    The scenario of the specification: [providerA] advertises [a1] and
    [a2], [providerB] advertises [b1].  A third probe, [providerC],
    advertises [b1] once more, and its hook raises for [c1].  The
    environment counts the calls the probes have served. *)
Module Demo.

Definition environment : Environment := {|
  World := nat;
  Args := list (string * string);
  FuncDef := string * string;
  Foreign := string;
  func_name := fst;
  str_args := fun a => String.concat ", " (map (fun kv => fst kv ++ ": " ++ snd kv) a)
|}.

#[local] Existing Instance environment.

(** The function definitions of the scenario: a name and a description. *)
Definition a1 : FuncDef := ("a1", "first of A").
Definition a2 : FuncDef := ("a2", "second of A").
Definition b1 : FuncDef := ("b1", "first of B").
Definition b1_again : FuncDef := ("b1", "b1 again, of C").
Definition c1 : FuncDef := ("c1", "first of C").
Definition g1 : FuncDef := ("g1", "first of nobody").

Definition providerA : Probe := {|
  name := "providerA";
  list_function := fun w => (Return [a1; a2], w);
  call_function := fun f _ w => (Return ("A ran " ++ f), S w)
|}.

Definition providerB : Probe := {|
  name := "providerB";
  list_function := fun w => (Return [b1], w);
  call_function := fun f _ w => (Return ("B ran " ++ f), S w)
|}.

Definition providerC : Probe := {|
  name := "providerC";
  list_function := fun w => (Return [b1_again; c1], w);
  call_function := fun f _ w =>
    if String.eqb f "c1" then (Raise (OtherError "connection refused"), w)
    else (Return ("C ran " ++ f), S w)
|}.

(** The registry of the scenario, and one in which [b1] has two owners. *)
Definition registry : list Probe := [providerA; providerB].

Definition shared : list Probe := [providerA; providerB; providerC].

(** What each of the three probes lists. *)
Definition listing (p : Probe) : list FuncDef :=
  match fst (list_function p 0) with
  | Return l => l
  | Raise _ => []
  end.

(** A process that has constructed no controller yet. *)
Definition fresh (probes : list Probe) : state :=
  {| probe_index := probes; function_index := []; world := 0; trace := [] |}.

(** The same process after [ProbeController()], once and twice. *)
Definition once (probes : list Probe) : state := snd (__init__ (fresh probes)).

Definition twice (probes : list Probe) : state := snd (__init__ (once probes)).

(** The arguments of the scenario's call, and the store that the call
    [function_call("b1", {"x": "1"})] leaves after one construction. *)
Definition x1 : Args := [("x", "1")].

Definition called : state := snd (function_call "b1" x1 (once registry)).

(** An index that no constructor builds: its entry names a probe that is
    not registered. *)
Definition orphaned : state :=
  {| probe_index := [providerA];
     function_index := [ {| probe := "ghost"; function := g1 |} ];
     world := 0; trace := [] |}.

End Demo.

(** ** Registries that go wrong

    Three more probes: the listing hook of [broken] raises, the execution
    hook of [confused] raises the controller's own [FunctionNotFoundError],
    and [impostor] is registered under the name of [providerA]. *)
Module Faulty.

#[local] Existing Instance Demo.environment.

Definition e1 : FuncDef := ("e1", "first of confused").
Definition z1 : FuncDef := ("z1", "first of the impostor").

Definition broken : Probe := {|
  name := "broken";
  list_function := fun w => (Raise (OtherError "listing failed"), S w);
  call_function := fun f _ w => (Return ("broken ran " ++ f), S w)
|}.

Definition confused : Probe := {|
  name := "confused";
  list_function := fun w => (Return [e1], w);
  call_function := fun _ _ w => (Raise (FunctionNotFoundError "inner"), S w)
|}.

Definition impostor : Probe := {|
  name := "providerA";
  list_function := fun w => (Return [z1], w);
  call_function := fun f _ w => (Return ("impostor ran " ++ f), S w)
|}.

Definition interrupted : list Probe := [Demo.providerA; broken; Demo.providerB].

Definition swallowing : list Probe := [Demo.providerA; confused].

Definition doubled : list Probe := [Demo.providerA; impostor].

End Faulty.

(** ** A registry with a probe taken out *)

Section Registries.

Context `{Environment}.

(** The store with another list in the place of [__probe_index]. *)
Definition set_probe_index (l : list Probe) (st : state) : state :=
  {| probe_index := l; function_index := function_index st;
     world := world st; trace := trace st |}.

End Registries.

(** * Properties *)

Section Properties.

Context `{Environment}.
Local Open Scope list_scope.
Local Open Scope method_scope.

(** ** The lookups as searches *)

Lemma get_function_from_find (l : list Entry) (nm : string) (st : state) :
  get_function_from l nm st =
  (match find (names_function nm) l with
   | Some e => Return e
   | None => Raise (FunctionNotFoundError nm)
   end, st).
Proof.
  induction l as [|e l IH]; simpl; [reflexivity|].
  unfold names_function at 1.
  destruct (String.eqb (func_name (function e)) nm); [reflexivity | exact IH].
Qed.

Lemma get_probe_from_find (l : list Probe) (nm : string) (st : state) :
  get_probe_from l nm st =
  (match find (names_probe nm) l with
   | Some p => Return p
   | None => Raise (ProbeNotFoundError nm)
   end, st).
Proof.
  induction l as [|p l IH]; simpl; [reflexivity|].
  unfold names_probe at 1.
  destruct (String.eqb (name p) nm); [reflexivity | exact IH].
Qed.

Lemma find_function_absent (l : list Entry) (nm : string) :
  (forall e, In e l -> func_name (function e) <> nm) ->
  find (names_function nm) l = None.
Proof.
  intros Habs. destruct (find (names_function nm) l) as [e|] eqn:E; [|reflexivity].
  apply find_some in E as [Hin Hnm].
  apply String.eqb_eq in Hnm. elim (Habs e Hin Hnm).
Qed.

Lemma find_function_present (l : list Entry) (nm : string) (e : Entry) :
  In e l -> func_name (function e) = nm ->
  exists e', find (names_function nm) l = Some e'.
Proof.
  intros Hin Hnm. destruct (find (names_function nm) l) as [e'|] eqn:E; [eauto|].
  pose proof (find_none _ _ E e Hin) as F.
  unfold names_function in F. apply String.eqb_neq in F. contradiction.
Qed.

Lemma find_probe_absent (l : list Probe) (nm : string) :
  (forall p, In p l -> name p <> nm) ->
  find (names_probe nm) l = None.
Proof.
  intros Habs. destruct (find (names_probe nm) l) as [p|] eqn:E; [|reflexivity].
  apply find_some in E as [Hin Hnm].
  apply String.eqb_eq in Hnm. elim (Habs p Hin Hnm).
Qed.

Lemma find_probe_present (l : list Probe) (nm : string) :
  In nm (map name l) -> exists p, find (names_probe nm) l = Some p.
Proof.
  intros Hin. apply in_map_iff in Hin as (q & Hq & Hin).
  destruct (find (names_probe nm) l) as [p|] eqn:E; [eauto|].
  pose proof (find_none _ _ E q Hin) as F.
  unfold names_probe in F. apply String.eqb_neq in F. contradiction.
Qed.

(** In a registry of distinct names a name finds the probe that bears it. *)
Lemma find_probe_unique (pre post : list Probe) (p : Probe) :
  NoDup (map name (pre ++ p :: post)) ->
  find (names_probe (name p)) (pre ++ p :: post) = Some p.
Proof.
  induction pre as [|q pre IH]; simpl; intros Hnd.
  - unfold names_probe. now rewrite String.eqb_refl.
  - inversion Hnd as [|x xs Hnotin Hnd']; subst.
    unfold names_probe at 1.
    destruct (String.eqb_spec (name q) (name p)) as [Heq|Hneq]; [|auto].
    exfalso. apply Hnotin. rewrite Heq.
    apply in_map, in_or_app. right. now left.
Qed.

Lemma get_function_spec (nm : string) (st : state) :
  __get_function nm st =
  (match find (names_function nm) (function_index st) with
   | Some e => Return e
   | None => Raise (FunctionNotFoundError nm)
   end, st).
Proof. apply get_function_from_find. Qed.

Lemma get_probe_spec (nm : string) (st : state) :
  __get_probe nm st =
  (match find (names_probe nm) (probe_index st) with
   | Some p => Return p
   | None => Raise (ProbeNotFoundError nm)
   end, st).
Proof. apply get_probe_from_find. Qed.

(** ** What the constructor appends *)

Lemma set_world_same (st : state) : set_world (world st) st = st.
Proof. now destruct st. Qed.

Lemma set_function_index_same (st : state) :
  set_function_index (function_index st) st = st.
Proof. now destruct st. Qed.

Lemma init_functions_run (pname : string) (funcs : list FuncDef) (st : state) :
  init_functions pname funcs st =
  (Return tt, set_function_index (function_index st ++ entries_of pname funcs) st).
Proof.
  revert st. induction funcs as [|d funcs IH]; intros st; simpl.
  - unfold ret. now rewrite app_nil_r, set_function_index_same.
  - unfold bind, append_function_index. rewrite IH. simpl.
    unfold set_function_index; simpl. now rewrite <- app_assoc.
Qed.

Lemma init_probes_pure (listing : Probe -> list FuncDef) (probes : list Probe) (st : state) :
  pure_listing listing probes ->
  init_probes probes st =
  (Return tt, set_function_index (function_index st ++ index_of listing probes) st).
Proof.
  revert st. induction probes as [|p probes IH]; intros st Hpure; simpl.
  - unfold ret. now rewrite app_nil_r, set_function_index_same.
  - unfold bind, do_list. rewrite (Hpure p (or_introl eq_refl)).
    rewrite set_world_same, init_functions_run.
    rewrite IH by (intros q Hq; apply Hpure; now right).
    unfold set_function_index; simpl. now rewrite <- app_assoc.
Qed.

(** Without any assumption on the hooks: a construction, finished or
    abandoned by an exception, leaves the registry and the trace alone and
    only appends entries that bear the name of a registered probe. *)
Lemma init_probes_frame (probes : list Probe) (st : state) (r : outcome unit) (st' : state) :
  init_probes probes st = (r, st') ->
  probe_index st' = probe_index st /\ trace st' = trace st /\
  exists new, function_index st' = function_index st ++ new /\
              forall e, In e new -> In (probe e) (map name probes).
Proof.
  revert st. induction probes as [|p probes IH]; intros st; simpl.
  - unfold ret. intros [= <- <-]. repeat split.
    exists []. split; [now rewrite app_nil_r | intros e []].
  - unfold bind, do_list.
    destruct (list_function p (world st)) as [[funcs|ex] w].
    + rewrite init_functions_run. intros Hrun.
      apply IH in Hrun as (Hp & Ht & new & Hf & Hnew). simpl in Hp, Ht, Hf.
      repeat split; [exact Hp | exact Ht |].
      exists (entries_of (name p) funcs ++ new). split.
      * now rewrite Hf, app_assoc.
      * intros e [He|He]%in_app_or.
        -- left. unfold entries_of in He. apply in_map_iff in He as (d & <- & _).
           reflexivity.
        -- right. now apply Hnew.
    + intros [= <- <-]. repeat split.
      exists []. split; [simpl; now rewrite app_nil_r | intros e []].
Qed.

(** ** What listing and calling leave alone *)

Lemma function_list_from_pure (listing : Probe -> list FuncDef) (probes : list Probe)
    (acc : list FuncDef) (st : state) :
  pure_listing listing probes ->
  function_list_from probes acc st = (Return (acc ++ flat_map listing probes), st).
Proof.
  revert acc st. induction probes as [|p probes IH]; intros acc st Hpure; simpl.
  - unfold ret. now rewrite app_nil_r.
  - unfold bind, do_list. rewrite (Hpure p (or_introl eq_refl)).
    rewrite set_world_same.
    rewrite IH by (intros q Hq; apply Hpure; now right).
    now rewrite <- app_assoc.
Qed.

Lemma function_list_from_frame (probes : list Probe) (acc : list FuncDef) (st : state)
    (r : outcome (list FuncDef)) (st' : state) :
  function_list_from probes acc st = (r, st') ->
  probe_index st' = probe_index st /\ function_index st' = function_index st /\
  trace st' = trace st.
Proof.
  revert acc st. induction probes as [|p probes IH]; intros acc st; simpl.
  - unfold ret. now intros [= <- <-].
  - unfold bind, do_list.
    destruct (list_function p (world st)) as [[funcs|ex] w].
    + intros Hrun. apply IH in Hrun as (Hp & Hf & Ht). now simpl in *.
    + now intros [= <- <-].
Qed.

(** ** The three ways through [function_call] *)

Lemma function_call_unknown_function (nm : string) (args : Args) (st : state) :
  find (names_function nm) (function_index st) = None ->
  function_call nm args st = (Return None, emit (Printed nm) st).
Proof.
  intros Hfind. unfold function_call, try_except, bind.
  rewrite get_function_spec, Hfind. reflexivity.
Qed.

Lemma function_call_unknown_probe (nm : string) (args : Args) (st : state) (e : Entry) :
  find (names_function nm) (function_index st) = Some e ->
  find (names_probe (probe e)) (probe_index st) = None ->
  function_call nm args st = (Return None, emit (Printed (probe e)) st).
Proof.
  intros Hfind Hprobe. unfold function_call, try_except, bind.
  rewrite get_function_spec, Hfind, get_probe_spec, Hprobe. reflexivity.
Qed.

Lemma function_call_resolved (nm : string) (args : Args) (st : state) (e : Entry) (p : Probe) :
  find (names_function nm) (function_index st) = Some e ->
  find (names_probe (probe e)) (probe_index st) = Some p ->
  function_call nm args st = try_except (call_probe e p nm args) lookup_handler st.
Proof.
  intros Hfind Hprobe. unfold function_call, try_except, bind.
  rewrite get_function_spec, Hfind, get_probe_spec, Hprobe. reflexivity.
Qed.

Lemma call_probe_returns (e : Entry) (p : Probe) (nm : string) (args : Args) (st : state)
    (s : string) (w : World) :
  call_function p nm args (world st) = (Return s, w) ->
  try_except (call_probe e p nm args) lookup_handler st =
  (Return (Some s),
   emit (Debug (result_message (name p) (func_name (function e)) s)) (entered p nm args w st)).
Proof.
  intros Hcall. unfold try_except, call_probe, bind, debug, do_call. simpl.
  rewrite Hcall. reflexivity.
Qed.

Lemma call_probe_raises (e : Entry) (p : Probe) (nm : string) (args : Args) (st : state)
    (ex : exception) (w : World) :
  call_function p nm args (world st) = (Raise ex, w) ->
  is_lookup_error ex = false ->
  try_except (call_probe e p nm args) lookup_handler st = (Raise ex, entered p nm args w st).
Proof.
  intros Hcall Hkind. unfold try_except, call_probe, bind, debug, do_call. simpl.
  rewrite Hcall. destruct ex; try discriminate. reflexivity.
Qed.

Lemma function_call_frame (nm : string) (args : Args) (st : state)
    (r : outcome (option string)) (st' : state) :
  function_call nm args st = (r, st') ->
  probe_index st' = probe_index st /\ function_index st' = function_index st.
Proof.
  unfold function_call, try_except, bind.
  rewrite get_function_spec.
  destruct (find (names_function nm) (function_index st)) as [e|]; simpl;
    [|now intros [= <- <-]].
  rewrite get_probe_spec.
  destruct (find (names_probe (probe e)) (probe_index st)) as [p|]; simpl;
    [|now intros [= <- <-]].
  unfold call_probe, bind, debug, do_call. simpl.
  destruct (call_function p nm args (world st)) as [[s|ex] w]; simpl.
  - now intros [= <- <-].
  - destruct ex; simpl; now intros [= <- <-].
Qed.

(** ** Invariants of a process that has constructed a controller *)

Lemma init_frame (st : state) (r : outcome unit) (st' : state) :
  __init__ st = (r, st') ->
  probe_index st' = probe_index st /\ trace st' = trace st /\
  exists new, function_index st' = function_index st ++ new /\
              forall e, In e new -> In (probe e) (map name (probe_index st)).
Proof. apply init_probes_frame. Qed.

Lemma init_pure (listing : Probe -> list FuncDef) (st : state) :
  pure_listing listing (probe_index st) ->
  __init__ st =
  (Return tt,
   set_function_index (function_index st ++ index_of listing (probe_index st)) st).
Proof. apply init_probes_pure. Qed.

Lemma function_list_frame (st : state) (r : outcome (list FuncDef)) (st' : state) :
  function_list st = (r, st') ->
  probe_index st' = probe_index st /\ function_index st' = function_index st /\
  trace st' = trace st.
Proof. apply function_list_from_frame. Qed.

Lemma function_list_pure (listing : Probe -> list FuncDef) (st : state) :
  pure_listing listing (probe_index st) ->
  function_list st = (Return (flat_map listing (probe_index st)), st).
Proof. intros Hpure. apply (function_list_from_pure listing _ [] st Hpure). Qed.

(** Every entry of the index bears the name of a registered probe. *)
Lemma constructed_consistent (st : state) :
  constructed st ->
  forall e, In e (function_index st) -> In (probe e) (map name (probe_index st)).
Proof.
  induction 1 as [st0 r st Hempty Hrun | st r st' _ IH Hrun | st r st' _ IH Hrun
                 | st nm args r st' _ IH Hrun | st w _ IH]; intros e He.
  - apply init_frame in Hrun as (Hp & _ & new & Hf & Hnew).
    rewrite Hf, Hempty in He. rewrite Hp. now apply Hnew.
  - apply init_frame in Hrun as (Hp & _ & new & Hf & Hnew).
    rewrite Hp. rewrite Hf in He. apply in_app_or in He as [He|He]; auto.
  - apply function_list_frame in Hrun as (Hp & Hf & _).
    rewrite Hp. rewrite Hf in He. auto.
  - apply function_call_frame in Hrun as (Hp & Hf).
    rewrite Hp. rewrite Hf in He. auto.
  - simpl in *. auto.
Qed.

(** With pure listing hooks the index begins with what the first
    construction put there. *)
Lemma constructed_prefix (listing : Probe -> list FuncDef) (st : state) :
  constructed st ->
  pure_listing listing (probe_index st) ->
  exists rest, function_index st = index_of listing (probe_index st) ++ rest.
Proof.
  induction 1 as [st0 r st Hempty Hrun | st r st' _ IH Hrun | st r st' _ IH Hrun
                 | st nm args r st' _ IH Hrun | st w _ IH]; intros Hpure.
  - pose proof Hrun as Hfr. apply init_frame in Hfr as (Hp & _).
    rewrite Hp in Hpure. rewrite (init_pure listing st0 Hpure) in Hrun.
    injection Hrun as _ <-. exists []. simpl. now rewrite Hempty, app_nil_r.
  - pose proof Hrun as Hfr. apply init_frame in Hfr as (Hp & _ & new & Hf & _).
    rewrite Hp in *. destruct (IH Hpure) as [rest Hrest].
    exists (rest ++ new). now rewrite Hf, Hrest, app_assoc.
  - apply function_list_frame in Hrun as (Hp & Hf & _).
    rewrite Hp, Hf in *. auto.
  - apply function_call_frame in Hrun as (Hp & Hf).
    rewrite Hp, Hf in *. auto.
  - simpl in *. auto.
Qed.

(** ** Searching the index that the constructor builds *)

Lemma find_app_first {A : Type} (f : A -> bool) (l1 l2 : list A) (x : A) :
  find f l1 = Some x -> find f (l1 ++ l2) = Some x.
Proof.
  induction l1 as [|a l1 IH]; simpl; [discriminate|].
  destruct (f a); auto.
Qed.

Lemma find_app_later {A : Type} (f : A -> bool) (l1 l2 : list A) :
  find f l1 = None -> find f (l1 ++ l2) = find f l2.
Proof.
  induction l1 as [|a l1 IH]; simpl; [reflexivity|].
  destruct (f a); [discriminate | auto].
Qed.

Lemma find_entries_of (pname nm : string) (funcs : list FuncDef) :
  In nm (map func_name funcs) ->
  exists e, find (names_function nm) (entries_of pname funcs) = Some e /\
            probe e = pname /\ func_name (function e) = nm.
Proof.
  induction funcs as [|d funcs IH]; simpl; [intros []|].
  intros Hin. unfold names_function at 1. simpl.
  destruct (String.eqb_spec (func_name d) nm) as [Heq|Hneq].
  - eexists. split; [reflexivity|]. now split.
  - destruct Hin as [Hd|Hin]; [contradiction | auto].
Qed.

Lemma find_index_of_none (listing : Probe -> list FuncDef) (probes : list Probe) (nm : string) :
  (forall q, In q probes -> ~ In nm (advertised listing q)) ->
  find (names_function nm) (index_of listing probes) = None.
Proof.
  intros Hnone. apply find_function_absent. intros e He Hnm.
  unfold index_of in He. apply in_flat_map in He as (q & Hq & He).
  unfold entries_of in He. apply in_map_iff in He as (d & <- & Hd).
  apply (Hnone q Hq). unfold advertised. rewrite <- Hnm. now apply in_map.
Qed.

(** The first entry for a name belongs to the first probe that advertises it. *)
Lemma find_index_of_first (listing : Probe -> list FuncDef) (pre post : list Probe)
    (p : Probe) (nm : string) (rest : list Entry) :
  In nm (advertised listing p) ->
  (forall q, In q pre -> ~ In nm (advertised listing q)) ->
  exists e, find (names_function nm) (index_of listing (pre ++ p :: post) ++ rest) = Some e /\
            probe e = name p /\ func_name (function e) = nm.
Proof.
  intros Hp Hpre.
  destruct (find_entries_of (name p) nm (listing p) Hp) as (e & Hfind & He).
  exists e. split; [|exact He].
  apply find_app_first. unfold index_of. rewrite flat_map_app. simpl.
  rewrite find_app_later by (now apply find_index_of_none).
  now apply find_app_first.
Qed.

Lemma index_of_functions (listing : Probe -> list FuncDef) (probes : list Probe) :
  map function (index_of listing probes) = flat_map listing probes.
Proof.
  induction probes as [|p probes IH]; simpl; [reflexivity|].
  rewrite map_app, IH. f_equal.
  unfold entries_of. rewrite map_map. simpl. apply map_id.
Qed.

(** Lists of distinct names that are disjoint two by two have distinct
    names when laid end to end. *)
Lemma NoDup_advertised (listing : Probe -> list FuncDef) (probes : list Probe) :
  Forall (fun p => NoDup (advertised listing p)) probes ->
  ForallOrdPairs (fun p q => disjoint (advertised listing p) (advertised listing q)) probes ->
  NoDup (map func_name (flat_map listing probes)).
Proof.
  induction probes as [|p probes IH]; simpl; intros Hset Hdis; [constructor|].
  inversion Hset as [|? ? Hp Hset']; subst.
  inversion Hdis as [|? ? Hpq Hdis']; subst.
  rewrite map_app. apply NoDup_app; [exact Hp | now apply IH |].
  intros x Hx Hx'.
  apply in_map_iff in Hx' as (d & <- & Hd).
  apply in_flat_map in Hd as (q & Hq & Hd).
  rewrite Forall_forall in Hpq.
  apply (Hpq q Hq (func_name d) Hx). unfold advertised. now apply in_map.
Qed.

(** ** The lookups, read backwards *)

Lemma get_function_returns (nm : string) (st : state) (e : Entry) (st' : state) :
  __get_function nm st = (Return e, st') ->
  find (names_function nm) (function_index st) = Some e /\ st' = st /\
  func_name (function e) = nm.
Proof.
  rewrite get_function_spec.
  destruct (find (names_function nm) (function_index st)) as [e'|] eqn:E; [|discriminate].
  intros [= -> <-]. repeat split.
  apply find_some in E as [_ E]. now apply String.eqb_eq in E.
Qed.

Lemma get_probe_returns (nm : string) (st : state) (p : Probe) (st' : state) :
  __get_probe nm st = (Return p, st') ->
  find (names_probe nm) (probe_index st) = Some p /\ st' = st /\ name p = nm.
Proof.
  rewrite get_probe_spec.
  destruct (find (names_probe nm) (probe_index st)) as [p'|] eqn:E; [|discriminate].
  intros [= -> <-]. repeat split.
  apply find_some in E as [_ E]. now apply String.eqb_eq in E.
Qed.

(** ** The calls on the trace *)

Lemma calls_emit_called (p f : string) (a : Args) (st : state) :
  calls (trace (emit (Called p f a) st)) = calls (trace st) ++ [(p, f, a)].
Proof. unfold calls. simpl. now rewrite flat_map_app. Qed.

Lemma calls_emit_debug (m : string) (st : state) :
  calls (trace (emit (Debug m) st)) = calls (trace st).
Proof. unfold calls. simpl. now rewrite flat_map_app, app_nil_r. Qed.

Lemma calls_emit_printed (m : string) (st : state) :
  calls (trace (emit (Printed m) st)) = calls (trace st).
Proof. unfold calls. simpl. now rewrite flat_map_app, app_nil_r. Qed.

Lemma calls_entered (p : Probe) (nm : string) (args : Args) (w : World) (st : state) :
  calls (trace (entered p nm args w st)) = calls (trace st) ++ [(name p, nm, args)].
Proof.
  unfold entered.
  change (trace (set_world w ?s)) with (trace s).
  now rewrite calls_emit_called, calls_emit_debug.
Qed.

(** Once both lookups have returned, the hook of the probe found is called
    once, with the name and the arguments of the request, whatever comes of it. *)
Lemma call_probe_calls (e : Entry) (p : Probe) (nm : string) (args : Args) (st : state)
    (r : outcome (option string)) (st' : state) :
  try_except (call_probe e p nm args) lookup_handler st = (r, st') ->
  calls (trace st') = calls (trace st) ++ [(name p, nm, args)].
Proof.
  unfold try_except, call_probe, bind, debug, do_call. simpl.
  destruct (call_function p nm args (world st)) as [[s|ex] w]; simpl.
  - intros [= <- <-]. rewrite calls_emit_debug. apply calls_entered.
  - destruct ex; simpl; intros [= <- <-];
      rewrite ?calls_emit_printed; apply calls_entered.
Qed.

(** ** Constructing a second controller *)

(** Both instances append to the one list of the class: with pure listing
    hooks, the second construction leaves every entry in the index twice. *)
Lemma second_construction_duplicates (listing : Probe -> list FuncDef)
    (st0 : state) (r1 r2 : outcome unit) (st1 st2 : state) :
  function_index st0 = [] ->
  pure_listing listing (probe_index st0) ->
  __init__ st0 = (r1, st1) ->
  __init__ st1 = (r2, st2) ->
  function_index st1 = index_of listing (probe_index st0) /\
  function_index st2 = function_index st1 ++ function_index st1.
Proof.
  intros Hempty Hpure Hrun1 Hrun2.
  rewrite (init_pure listing st0 Hpure) in Hrun1. injection Hrun1 as _ <-.
  rewrite (init_pure listing) in Hrun2 by exact Hpure. injection Hrun2 as _ <-.
  simpl. rewrite Hempty. now split.
Qed.

(** Once both lookups have returned, the outcome of the call and the
    environment it leaves are those of the hook of the probe found, run on
    the name and the arguments of the request in the environment of the
    store. *)
Lemma call_probe_relays (e : Entry) (p : Probe) (nm : string) (args : Args) (st : state)
    (r : outcome (option string)) (st' : state) :
  try_except (call_probe e p nm args) lookup_handler st = (r, st') ->
  r = relayed (fst (call_function p nm args (world st))) /\
  world st' = snd (call_function p nm args (world st)).
Proof.
  unfold try_except, call_probe, bind, debug, do_call. simpl.
  destruct (call_function p nm args (world st)) as [[s|ex] w]; simpl.
  - now intros [= <- <-].
  - destruct ex; simpl; now intros [= <- <-].
Qed.

(** ** The properties of the specification *)

(** C2 -- first registered wins.  In a process that has constructed a
    controller, with probes of distinct names (the module's docstring asks
    for the unique name of each probe) whose listing hooks are pure, let
    [p] be the first probe of the registry that advertises [nm] (other
    probes after it may advertise [nm] too).  Then the function lookup
    returns an entry of [p], the probe lookup returns [p], and
    [function_call nm args] runs the hook of [p]: what it returns or raises
    is what [call_function p nm args] returns or raises in the environment
    of the store (a string as it is, an exception of the two caught kinds
    as [None]), the environment it leaves is the one that this run of the
    hook leaves, and the trace has one more call, of [p].  The same holds
    for the next call, made in the store that the first one left. *)
Theorem first_registered_probe_is_called (listing : Probe -> list FuncDef) (st : state)
    (pre post : list Probe) (p : Probe) (nm : string) :
  constructed st ->
  pure_listing listing (probe_index st) ->
  NoDup (map name (probe_index st)) ->
  probe_index st = pre ++ p :: post ->
  In nm (advertised listing p) ->
  (forall q, In q pre -> ~ In nm (advertised listing q)) ->
  exists e,
    probe e = name p /\
    __get_function nm st = (Return e, st) /\
    __get_probe (probe e) st = (Return p, st) /\
    forall args r st',
      function_call nm args st = (r, st') ->
      (r, st') = try_except (call_probe e p nm args) lookup_handler st /\
      r = relayed (fst (call_function p nm args (world st))) /\
      world st' = snd (call_function p nm args (world st)) /\
      calls (trace st') = calls (trace st) ++ [(name p, nm, args)] /\
      forall args' r' st'',
        function_call nm args' st' = (r', st'') ->
        (r', st'') = try_except (call_probe e p nm args') lookup_handler st' /\
        r' = relayed (fst (call_function p nm args' (world st'))) /\
        world st'' = snd (call_function p nm args' (world st')) /\
        calls (trace st'') = calls (trace st') ++ [(name p, nm, args')].
Proof.
  intros Hcons Hpure Hnd Hreg Hp Hpre.
  destruct (constructed_prefix listing st Hcons Hpure) as [rest Hrest].
  destruct (find_index_of_first listing pre post p nm rest Hp Hpre) as (e & Hfind & He & _).
  rewrite Hreg in Hrest. rewrite <- Hrest in Hfind.
  assert (Hprobe : find (names_probe (probe e)) (probe_index st) = Some p).
  { rewrite He, Hreg. apply find_probe_unique. now rewrite <- Hreg. }
  exists e. split; [exact He|]. split; [|split].
  - now rewrite get_function_spec, Hfind.
  - now rewrite get_probe_spec, Hprobe.
  - intros args r st' Hcall.
    pose proof (function_call_frame _ _ _ _ _ Hcall) as [Hp' Hf'].
    rewrite (function_call_resolved nm args st e p Hfind Hprobe) in Hcall.
    split; [now symmetry|].
    destruct (call_probe_relays _ _ _ _ _ _ _ Hcall) as [Hr Hw].
    split; [exact Hr|]. split; [exact Hw|].
    split; [now apply call_probe_calls in Hcall|].
    intros args' r' st'' Hcall'.
    rewrite (function_call_resolved nm args' st' e p) in Hcall'
      by (rewrite ?Hf', ?Hp'; assumption).
    split; [now symmetry|].
    destruct (call_probe_relays _ _ _ _ _ _ _ Hcall') as [Hr' Hw'].
    split; [exact Hr'|]. split; [exact Hw'|].
    now apply call_probe_calls in Hcall'.
Qed.

(** C3 -- the list of a registry with disjoint names.  When the listing
    hooks are pure, every probe advertises a set of names (no name twice in
    its own list) and the sets of different registry positions are disjoint
    two by two, [function_list] returns the lists of the probes laid end to
    end in registry order, and leaves the store as it was; no name occurs
    twice in the result and every definition of every probe is in it. *)
Theorem function_list_of_disjoint_probes (listing : Probe -> list FuncDef) (st : state) :
  pure_listing listing (probe_index st) ->
  Forall (fun p => NoDup (advertised listing p)) (probe_index st) ->
  ForallOrdPairs (fun p q => disjoint (advertised listing p) (advertised listing q))
    (probe_index st) ->
  exists l,
    function_list st = (Return l, st) /\
    l = List.concat (map listing (probe_index st)) /\
    NoDup (map func_name l) /\
    forall p d, In p (probe_index st) -> In d (listing p) -> In d l.
Proof.
  intros Hpure Hset Hdis. exists (flat_map listing (probe_index st)).
  split; [now apply function_list_pure|]. split; [apply flat_map_concat_map|].
  split; [now apply NoDup_advertised|].
  intros p d Hp Hd. apply in_flat_map. eauto.
Qed.


(** C6 -- the probe lookup cannot fail on an index that the constructor
    built.  In a process that has constructed a controller, whenever
    [__get_function] returns an entry, [__get_probe] returns a probe for the
    name that the entry records: its [raise ProbeNotFoundError] is not
    reached. *)
Theorem probe_lookup_succeeds (st : state) (nm : string) (e : Entry) (st' : state) :
  constructed st ->
  __get_function nm st = (Return e, st') ->
  exists p, __get_probe (probe e) st' = (Return p, st') /\ name p = probe e.
Proof.
  intros Hcons Hget.
  apply get_function_returns in Hget as (Hfind & -> & _).
  apply find_some in Hfind as [Hin _].
  destruct (find_probe_present _ _ (constructed_consistent st Hcons e Hin)) as [p Hprobe].
  exists p. rewrite get_probe_spec, Hprobe. split; [reflexivity|].
  apply find_some in Hprobe as [_ Hname]. now apply String.eqb_eq in Hname.
Qed.

(** C7 -- nothing but the two lookup errors is caught.  Once both lookups
    have returned (entry [e], probe [p]): an exception of the hook of [p]
    that is neither a [FunctionNotFoundError] nor a [ProbeNotFoundError]
    leaves [function_call] as it left the hook, and a string that the hook
    returns is returned, whatever it says. *)
Theorem only_lookup_errors_are_caught (st : state) (nm : string) (args : Args)
    (e : Entry) (p : Probe) :
  __get_function nm st = (Return e, st) ->
  __get_probe (probe e) st = (Return p, st) ->
  (forall ex w,
      call_function p nm args (world st) = (Raise ex, w) ->
      is_lookup_error ex = false ->
      function_call nm args st = (Raise ex, entered p nm args w st)) /\
  (forall s w,
      call_function p nm args (world st) = (Return s, w) ->
      function_call nm args st =
      (Return (Some s), emit (Debug (result_message (name p) nm s)) (entered p nm args w st))).
Proof.
  intros Hget Hprobe.
  apply get_function_returns in Hget as (Hfind & _ & Hnm).
  apply get_probe_returns in Hprobe as (Hprobe & _ & _).
  split.
  - intros ex w Hhook Hkind.
    rewrite (function_call_resolved nm args st e p Hfind Hprobe).
    now apply call_probe_raises.
  - intros s w Hhook.
    rewrite (function_call_resolved nm args st e p Hfind Hprobe).
    rewrite (call_probe_returns e p nm args st s w Hhook). now rewrite Hnm.
Qed.

(** C8 -- listing twice.  With pure listing hooks, [function_list] returns
    a list and leaves the store exactly as it was; called twice in a row it
    returns that list both times. *)
Theorem function_list_idempotent (listing : Probe -> list FuncDef) (st : state) :
  pure_listing listing (probe_index st) ->
  exists l,
    function_list st = (Return l, st) /\
    (l1 <- function_list ;; l2 <- function_list ;; ret (l1, l2)) st = (Return (l, l), st).
Proof.
  intros Hpure. exists (flat_map listing (probe_index st)).
  pose proof (function_list_pure listing st Hpure) as Hlist.
  split; [exact Hlist|]. unfold bind. now rewrite !Hlist.
Qed.

(** X15 -- the list is the index of one construction.  With pure listing
    hooks, the constructor run on the empty index of the class body
    returns; in the store it leaves, and in every later store whose
    registry and index are still the ones it left, [function_list] returns
    the function definitions of the entries of [__function_index], one for
    one and in the order of the index. *)
Theorem function_list_is_the_index (listing : Probe -> list FuncDef)
    (st0 : state) (r : outcome unit) (st1 st : state) :
  function_index st0 = [] ->
  pure_listing listing (probe_index st0) ->
  __init__ st0 = (r, st1) ->
  probe_index st = probe_index st1 ->
  function_index st = function_index st1 ->
  r = Return tt /\
  function_list st = (Return (map function (function_index st)), st).
Proof.
  intros Hempty Hpure Hrun Hp Hf. rewrite (init_pure listing st0 Hpure) in Hrun.
  injection Hrun as <- <-. split; [reflexivity|].
  simpl in Hp, Hf. rewrite Hempty in Hf. simpl in Hf.
  rewrite (function_list_pure listing) by (now rewrite Hp).
  now rewrite Hf, index_of_functions, Hp.
Qed.


End Properties.

(** * Further properties of the controller *)

Section Further.

Context `{Environment}.
Local Open Scope list_scope.
Local Open Scope method_scope.

(** ** Linear search *)

Lemma find_first {A : Type} (f : A -> bool) (l : list A) (x : A) :
  find f l = Some x ->
  exists pre post, l = pre ++ x :: post /\ forall y, In y pre -> f y = false.
Proof.
  induction l as [|a l IH]; simpl; [discriminate|].
  destruct (f a) eqn:Fa.
  - intros [= ->]. exists [], l. split; [reflexivity | intros y []].
  - intros Hfind. destruct (IH Hfind) as (pre & post & -> & Hpre).
    exists (a :: pre), post. split; [reflexivity|].
    intros y [<-|Hy]; auto.
Qed.

Lemma find_app_covered {A : Type} (f : A -> bool) (l rest : list A) :
  (forall y, In y rest -> In y l) -> find f (l ++ rest) = find f l.
Proof.
  intros Hcov. destruct (find f l) as [x|] eqn:E.
  - now apply find_app_first.
  - rewrite find_app_later by exact E.
    destruct (find f rest) as [y|] eqn:E'; [|reflexivity].
    apply find_some in E' as [Hy Fy].
    now rewrite (find_none _ _ E y (Hcov y Hy)) in Fy.
Qed.

(** X1 -- [__get_function] returns the first entry that bears the name.
    When it returns [e], the store is as before, [e] bears the name, and
    the index splits around [e] with no entry before it that bears the
    name. *)
Theorem get_function_returns_first_match (st : state) (nm : string) (e : Entry) (st' : state) :
  __get_function nm st = (Return e, st') ->
  st' = st /\
  func_name (function e) = nm /\
  exists pre post,
    function_index st = pre ++ e :: post /\
    forall e', In e' pre -> func_name (function e') <> nm.
Proof.
  intros Hget. apply get_function_returns in Hget as (Hfind & -> & Hnm).
  split; [reflexivity|]. split; [exact Hnm|].
  destruct (find_first _ _ _ Hfind) as (pre & post & Hsplit & Hpre).
  exists pre, post. split; [exact Hsplit|].
  intros e' He'. apply String.eqb_neq. exact (Hpre e' He').
Qed.

(** X2 -- [__get_function] raises exactly when no entry bears the name:
    then it raises [FunctionNotFoundError] of the name asked for, and it
    never raises anything else nor changes the store. *)
Theorem get_function_raises_iff_absent (st : state) (nm : string) :
  (__get_function nm st = (Raise (FunctionNotFoundError nm), st) <->
   forall e, In e (function_index st) -> func_name (function e) <> nm) /\
  (forall ex st', __get_function nm st = (Raise ex, st') ->
                  ex = FunctionNotFoundError nm /\ st' = st).
Proof.
  rewrite get_function_spec. split; [split|].
  - destruct (find (names_function nm) (function_index st)) as [e|] eqn:E;
      [discriminate|].
    intros _ e He. apply String.eqb_neq. exact (find_none _ _ E e He).
  - intros Habs. now rewrite find_function_absent.
  - intros ex st'.
    destruct (find (names_function nm) (function_index st)); [discriminate|].
    now intros [= <- <-].
Qed.

(** X3 -- [__get_probe] returns the first probe that bears the name.  When
    it returns [p], the store is as before, [p] bears the name, and the
    registry splits around [p] with no probe before it that bears the
    name. *)
Theorem get_probe_returns_first_match (st : state) (nm : string) (p : Probe) (st' : state) :
  __get_probe nm st = (Return p, st') ->
  st' = st /\
  name p = nm /\
  exists pre post,
    probe_index st = pre ++ p :: post /\
    forall q, In q pre -> name q <> nm.
Proof.
  intros Hget. apply get_probe_returns in Hget as (Hfind & -> & Hnm).
  split; [reflexivity|]. split; [exact Hnm|].
  destruct (find_first _ _ _ Hfind) as (pre & post & Hsplit & Hpre).
  exists pre, post. split; [exact Hsplit|].
  intros q Hq. apply String.eqb_neq. exact (Hpre q Hq).
Qed.

(** X4 -- [__get_probe] raises exactly when no registered probe bears the
    name: then it raises [ProbeNotFoundError] of the name asked for, and it
    never raises anything else nor changes the store. *)
Theorem get_probe_raises_iff_absent (st : state) (nm : string) :
  (__get_probe nm st = (Raise (ProbeNotFoundError nm), st) <->
   forall p, In p (probe_index st) -> name p <> nm) /\
  (forall ex st', __get_probe nm st = (Raise ex, st') ->
                  ex = ProbeNotFoundError nm /\ st' = st).
Proof.
  rewrite get_probe_spec. split; [split|].
  - destruct (find (names_probe nm) (probe_index st)) as [p|] eqn:E;
      [discriminate|].
    intros _ p Hp. apply String.eqb_neq. exact (find_none _ _ E p Hp).
  - intros Habs. now rewrite find_probe_absent.
  - intros ex st'.
    destruct (find (names_probe nm) (probe_index st)); [discriminate|].
    now intros [= <- <-].
Qed.

(** ** The constructor, hook by hook *)

Lemma init_probes_app_pure (listing : Probe -> list FuncDef) (pre rest : list Probe)
    (st : state) :
  pure_listing listing pre ->
  init_probes (pre ++ rest) st =
  init_probes rest (set_function_index (function_index st ++ index_of listing pre) st).
Proof.
  revert st. induction pre as [|p pre IH]; intros st Hpure; simpl.
  - now rewrite app_nil_r, set_function_index_same.
  - unfold bind, do_list. rewrite (Hpure p (or_introl eq_refl)).
    rewrite set_world_same, init_functions_run.
    rewrite IH by (intros q Hq; apply Hpure; now right).
    unfold set_function_index; simpl. now rewrite <- app_assoc.
Qed.

Lemma function_list_from_app_pure (listing : Probe -> list FuncDef) (pre rest : list Probe)
    (acc : list FuncDef) (st : state) :
  pure_listing listing pre ->
  function_list_from (pre ++ rest) acc st =
  function_list_from rest (acc ++ flat_map listing pre) st.
Proof.
  revert acc. induction pre as [|p pre IH]; intros acc Hpure; simpl.
  - now rewrite app_nil_r.
  - unfold bind, do_list. rewrite (Hpure p (or_introl eq_refl)).
    rewrite set_world_same.
    rewrite IH by (intros q Hq; apply Hpure; now right).
    now rewrite <- app_assoc.
Qed.

(** X5 -- a construction only appends.  Whatever the hooks do, and
    whether [__init__] returns or raises, it leaves the registry and the
    trace as they were (it prints nothing, logs nothing, calls no execution
    hook), keeps the entries that were in the index, in their order, and
    every entry it adds records the name of a registered probe. *)
Theorem construction_only_appends (st : state) :
  probe_index (snd (__init__ st)) = probe_index st /\
  trace (snd (__init__ st)) = trace st /\
  exists new,
    function_index (snd (__init__ st)) = function_index st ++ new /\
    forall e, In e new -> In (probe e) (map name (probe_index st)).
Proof.
  destruct (__init__ st) as [r st'] eqn:Hrun. simpl.
  exact (init_frame st r st' Hrun).
Qed.

(** X6 -- a construction that a listing hook interrupts.  When the listing
    hook of a probe raises, after probes with pure hooks, [__init__] raises
    that exception and does not take back what it has appended: the
    entries of the probes before the failing one stay in the index of the
    class, the probes after it contribute nothing. *)
Theorem construction_interrupted_keeps_entries (listing : Probe -> list FuncDef)
    (st : state) (pre post : list Probe) (p : Probe) (ex : exception) (w : World) :
  probe_index st = pre ++ p :: post ->
  pure_listing listing pre ->
  list_function p (world st) = (Raise ex, w) ->
  __init__ st =
  (Raise ex,
   set_world w (set_function_index (function_index st ++ index_of listing pre) st)).
Proof.
  intros Hreg Hpure Hhook. unfold __init__. rewrite Hreg.
  rewrite (init_probes_app_pure listing) by exact Hpure.
  simpl. unfold bind, do_list. simpl. now rewrite Hhook.
Qed.

(** ** Listing *)

Lemma function_list_from_index (probes : list Probe) (acc : list FuncDef)
    (l : list Entry) (st : state) :
  function_list_from probes acc (set_function_index l st) =
  (fst (function_list_from probes acc st),
   set_function_index l (snd (function_list_from probes acc st))).
Proof.
  revert acc st. induction probes as [|p probes IH]; intros acc st; simpl.
  - reflexivity.
  - unfold bind, do_list. simpl.
    destruct (list_function p (world st)) as [[funcs|ex] w]; [|reflexivity].
    exact (IH (acc ++ funcs) (set_world w st)).
Qed.

(** X7 -- [function_list] has no [except] clause.  When the listing hook
    of a probe raises, after probes with pure hooks, [function_list] raises
    that exception, of whatever kind, and returns no part of the list; the
    store is as the hook left it. *)
Theorem function_list_raises_with_hook (listing : Probe -> list FuncDef)
    (st : state) (pre post : list Probe) (p : Probe) (ex : exception) (w : World) :
  probe_index st = pre ++ p :: post ->
  pure_listing listing pre ->
  list_function p (world st) = (Raise ex, w) ->
  function_list st = (Raise ex, set_world w st).
Proof.
  intros Hreg Hpure Hhook. unfold function_list. rewrite Hreg.
  rewrite (function_list_from_app_pure listing) by exact Hpure.
  simpl. unfold bind, do_list. now rewrite Hhook.
Qed.

(** X8 -- [function_list] does not read the index.  Whatever the hooks do,
    the outcome of [function_list] is the same with any other list in the
    place of [__function_index] (the empty one of a process that has
    constructed no controller, a doubled one), and the call leaves the
    registry, the index and the trace as they were. *)
Theorem function_list_ignores_the_index (st : state) (l : list Entry) :
  function_list (set_function_index l st) =
    (fst (function_list st), set_function_index l (snd (function_list st))) /\
  probe_index (snd (function_list st)) = probe_index st /\
  function_index (snd (function_list st)) = function_index st /\
  trace (snd (function_list st)) = trace st.
Proof.
  split.
  - apply (function_list_from_index (probe_index st) [] l st).
  - destruct (function_list st) as [r st'] eqn:Hrun. simpl.
    exact (function_list_frame st r st' Hrun).
Qed.

(** ** Calling *)


(** X10 -- what no call does.  Whatever the name, the arguments and the
    hooks, and whether [function_call] returns or raises, it leaves the
    registry and the index as they were and calls at most one execution
    hook, of a registered probe, with the name and the arguments of the
    request. *)
Theorem function_call_calls_at_most_one_hook (st : state) (nm : string) (args : Args) :
  probe_index (snd (function_call nm args st)) = probe_index st /\
  function_index (snd (function_call nm args st)) = function_index st /\
  (calls (trace (snd (function_call nm args st))) = calls (trace st) \/
   exists p, In p (probe_index st) /\
             calls (trace (snd (function_call nm args st))) =
             calls (trace st) ++ [(name p, nm, args)]).
Proof.
  destruct (function_call nm args st) as [r st'] eqn:Hcall. simpl.
  pose proof (function_call_frame nm args st r st' Hcall) as [Hp Hf].
  split; [exact Hp|]. split; [exact Hf|].
  destruct (find (names_function nm) (function_index st)) as [e|] eqn:Hfind.
  - destruct (find (names_probe (probe e)) (probe_index st)) as [p|] eqn:Hprobe.
    + right. exists p. split; [now apply find_some in Hprobe|].
      rewrite (function_call_resolved nm args st e p Hfind Hprobe) in Hcall.
      now apply call_probe_calls in Hcall.
    + left. rewrite (function_call_unknown_probe nm args st e Hfind Hprobe) in Hcall.
      injection Hcall as _ <-. apply calls_emit_printed.
  - left. rewrite (function_call_unknown_function nm args st Hfind) in Hcall.
    injection Hcall as _ <-. apply calls_emit_printed.
Qed.

(** ** The index of a process with pure listing hooks *)

(** Every entry of the index is one that a single construction appends. *)
Lemma constructed_entries (listing : Probe -> list FuncDef) (st : state) :
  constructed st ->
  pure_listing listing (probe_index st) ->
  forall e, In e (function_index st) -> In e (index_of listing (probe_index st)).
Proof.
  induction 1 as [st0 r st Hempty Hrun | st r st' _ IH Hrun | st r st' _ IH Hrun
                 | st nm args r st' _ IH Hrun | st w _ IH]; intros Hpure e He.
  - pose proof Hrun as Hfr. apply init_frame in Hfr as (Hp & _).
    rewrite Hp in *. rewrite (init_pure listing st0 Hpure) in Hrun.
    injection Hrun as _ <-. simpl in He. now rewrite Hempty in He.
  - pose proof Hrun as Hfr. apply init_frame in Hfr as (Hp & _).
    rewrite Hp in *. rewrite (init_pure listing st Hpure) in Hrun.
    injection Hrun as _ <-. simpl in He.
    apply in_app_or in He as [He|He]; auto.
  - apply function_list_frame in Hrun as (Hp & Hf & _).
    rewrite Hp, Hf in *. auto.
  - apply function_call_frame in Hrun as (Hp & Hf).
    rewrite Hp, Hf in *. auto.
  - simpl in *. auto.
Qed.

Lemma find_constructed (listing : Probe -> list FuncDef) (st : state) (nm : string) :
  constructed st ->
  pure_listing listing (probe_index st) ->
  find (names_function nm) (function_index st) =
  find (names_function nm) (index_of listing (probe_index st)).
Proof.
  intros Hcons Hpure.
  destruct (constructed_prefix listing st Hcons Hpure) as [rest Hrest].
  rewrite Hrest. apply find_app_covered. intros e He.
  apply (constructed_entries listing st Hcons Hpure).
  rewrite Hrest. apply in_or_app. now right.
Qed.

(** X11 -- the names that can be called are the names that are listed.  In
    a process that has constructed a controller, with pure listing hooks,
    [__get_function] returns an entry for a name exactly when the name is
    the name of a definition in the list that [function_list] returns. *)
Theorem callable_names_are_the_listed_names (listing : Probe -> list FuncDef)
    (st : state) (nm : string) :
  constructed st ->
  pure_listing listing (probe_index st) ->
  (exists e, __get_function nm st = (Return e, st)) <->
  (exists l, function_list st = (Return l, st) /\ In nm (map func_name l)).
Proof.
  intros Hcons Hpure. rewrite (function_list_pure listing st Hpure). split.
  - intros [e Hget]. exists (flat_map listing (probe_index st)).
    split; [reflexivity|].
    apply get_function_returns in Hget as (Hfind & _ & Hnm).
    apply find_some in Hfind as [Hin _].
    apply (constructed_entries listing st Hcons Hpure) in Hin.
    unfold index_of in Hin. apply in_flat_map in Hin as (p & Hp & Hin).
    unfold entries_of in Hin. apply in_map_iff in Hin as (d & <- & Hd).
    simpl in Hnm. rewrite <- Hnm. apply in_map. apply in_flat_map. eauto.
  - intros (l & [= <-] & Hin).
    apply in_map_iff in Hin as (d & Hnm & Hd).
    apply in_flat_map in Hd as (p & Hp & Hd).
    destruct (constructed_prefix listing st Hcons Hpure) as [rest Hrest].
    assert (Hin : In {| probe := name p; function := d |} (function_index st)).
    { rewrite Hrest. apply in_or_app. left. unfold index_of.
      apply in_flat_map. exists p. split; [exact Hp|].
      unfold entries_of. now apply in_map. }
    destruct (find_function_present _ nm _ Hin Hnm) as [e Hfind].
    exists e. now rewrite get_function_spec, Hfind.
Qed.

(** X12 -- the lookup does not depend on how often a controller has been
    constructed.  Two stores of processes that have constructed a
    controller, with the same registry and pure listing hooks, give the
    same outcome of [__get_function] for every name, however many
    constructions, listings and calls each has seen. *)
Theorem lookup_agrees_across_constructions (listing : Probe -> list FuncDef)
    (st1 st2 : state) (nm : string) :
  constructed st1 ->
  constructed st2 ->
  probe_index st2 = probe_index st1 ->
  pure_listing listing (probe_index st1) ->
  fst (__get_function nm st1) = fst (__get_function nm st2).
Proof.
  intros Hcons1 Hcons2 Hreg Hpure.
  rewrite !get_function_spec. simpl.
  rewrite (find_constructed listing st1 nm Hcons1 Hpure).
  rewrite (find_constructed listing st2 nm Hcons2) by (now rewrite Hreg).
  now rewrite Hreg.
Qed.

(** ** Two probes of one name *)

Lemma find_probe_shadowed (pre post : list Probe) (q : Probe) (nm : string) :
  In (name q) (map name pre) ->
  find (names_probe nm) (pre ++ q :: post) = find (names_probe nm) (pre ++ post).
Proof.
  intros Hshadow. destruct (find (names_probe nm) pre) as [p|] eqn:E.
  - now rewrite !(find_app_first _ _ _ _ E).
  - rewrite !find_app_later by exact E. simpl.
    destruct (names_probe nm q) eqn:Hq; [|reflexivity].
    unfold names_probe in Hq. apply String.eqb_eq in Hq. rewrite Hq in Hshadow.
    destruct (find_probe_present pre nm Hshadow) as [p Hp]. congruence.
Qed.

(** X13 -- a probe registered under a name that an earlier probe bears is
    never called.  Whatever the index, the name and the arguments,
    [function_call] does the same with a registry as with that registry
    without the later probe of the name: same outcome, same environment,
    same trace. *)
Theorem shadowed_probe_is_never_called (st : state) (pre post : list Probe) (q : Probe)
    (nm : string) (args : Args) :
  probe_index st = pre ++ q :: post ->
  In (name q) (map name pre) ->
  function_call nm args (set_probe_index (pre ++ post) st) =
  (fst (function_call nm args st),
   set_probe_index (pre ++ post) (snd (function_call nm args st))).
Proof.
  intros Hreg Hshadow.
  destruct (find (names_function nm) (function_index st)) as [e|] eqn:Hfind.
  - pose proof (find_probe_shadowed pre post q (probe e) Hshadow) as Hsame.
    rewrite <- Hreg in Hsame.
    destruct (find (names_probe (probe e)) (probe_index st)) as [p|] eqn:Hprobe.
    + rewrite (function_call_resolved nm args st e p Hfind Hprobe).
      rewrite (function_call_resolved nm args (set_probe_index (pre ++ post) st) e p)
        by (simpl; auto).
      unfold try_except, call_probe, bind, debug, do_call. simpl.
      destruct (call_function p nm args (world st)) as [[s|ex] w]; [reflexivity|].
      destruct ex; reflexivity.
    + rewrite (function_call_unknown_probe nm args st e Hfind Hprobe).
      rewrite (function_call_unknown_probe nm args (set_probe_index (pre ++ post) st) e)
        by (simpl; auto).
      reflexivity.
  - rewrite (function_call_unknown_function nm args st Hfind).
    rewrite (function_call_unknown_function nm args (set_probe_index (pre ++ post) st))
      by (simpl; auto).
    reflexivity.
Qed.

(** ** The messages of the two exceptions *)

(** X14 -- the attribute [msg] tells the kind of the error and the name.
    The message of a [FunctionNotFoundError] is never the message of a
    [ProbeNotFoundError], whatever the two names, and two exceptions of one
    kind have the same message only when they carry the same name. *)
Theorem msg_tells_kind_and_name (a b : string) :
  msg (FunctionNotFoundError a) <> msg (ProbeNotFoundError b) /\
  (msg (FunctionNotFoundError a) = msg (FunctionNotFoundError b) -> a = b) /\
  (msg (ProbeNotFoundError a) = msg (ProbeNotFoundError b) -> a = b).
Proof.
  repeat split; simpl.
  - discriminate.
  - now intros [= ->].
  - now intros [= ->].
Qed.

End Further.

(** * The deployment, run *)

#[local] Existing Instance Demo.environment.
Local Open Scope list_scope.

Lemma demo_registry_pure : pure_listing Demo.listing Demo.registry.
Proof. intros p [<-|[<-|[]]] w; reflexivity. Qed.

Lemma demo_shared_pure : pure_listing Demo.listing Demo.shared.
Proof. intros p [<-|[<-|[<-|[]]]] w; reflexivity. Qed.

Lemma demo_once_constructed (probes : list Probe) : constructed (Demo.once probes).
Proof.
  apply (constructed_first (Demo.fresh probes) (fst (__init__ (Demo.fresh probes)))).
  - reflexivity.
  - unfold Demo.once. now destruct (__init__ (Demo.fresh probes)).
Qed.

Lemma demo_twice_constructed (probes : list Probe) : constructed (Demo.twice probes).
Proof.
  apply (constructed_again (Demo.once probes) (fst (__init__ (Demo.once probes)))).
  - apply demo_once_constructed.
  - unfold Demo.twice. now destruct (__init__ (Demo.once probes)).
Qed.

(** The scenario of the specification, end to end. *)
Example scenario_function_list :
  function_list (Demo.once Demo.registry) =
    (Return [Demo.a1; Demo.a2; Demo.b1], Demo.once Demo.registry).
Proof. reflexivity. Qed.

Example scenario_function_call :
  fst (function_call "b1" Demo.x1 (Demo.once Demo.registry)) = Return (Some "B ran b1") /\
  calls (trace (snd (function_call "b1" Demo.x1 (Demo.once Demo.registry)))) =
    [("providerB", "b1", Demo.x1)].
Proof. split; reflexivity. Qed.

Example scenario_missing :
  fst (function_call "missing" [] (Demo.once Demo.registry)) = Return None.
Proof. reflexivity. Qed.

(** With two owners of [b1] the hook of [providerB] runs, not the one of
    [providerC]. *)
Example shared_function_call :
  fst (function_call "b1" [] (Demo.once Demo.shared)) = Return (Some "B ran b1").
Proof. reflexivity. Qed.

(** C1 -- what a lookup failure prints.  Asking the controller of the
    scenario for [missing] returns [None] and prints one line, the bare
    name [missing]; the text that names the kind of error is in the
    attribute [msg] of the exception, which nothing prints.  So a function
    that is not found and a probe that is not found print the same line
    when both are called [ghost]. *)
Theorem lookup_failure_prints_the_bare_name :
  function_call "missing" [] (Demo.once Demo.registry) =
    (Return None, emit (Printed "missing") (Demo.once Demo.registry)) /\
  trace (snd (function_call "missing" [] (Demo.once Demo.registry))) = [Printed "missing"] /\
  msg (FunctionNotFoundError "missing") = Some "Probe callable function not found: missing" /\
  trace (snd (function_call "ghost" [] (Demo.once Demo.registry))) = [Printed "ghost"] /\
  msg (FunctionNotFoundError "ghost") = Some "Probe callable function not found: ghost" /\
  function_call "g1" [] Demo.orphaned = (Return None, emit (Printed "ghost") Demo.orphaned) /\
  trace (snd (function_call "g1" [] Demo.orphaned)) = [Printed "ghost"] /\
  msg (ProbeNotFoundError "ghost") = Some "Probe not found: ghost".
Proof. repeat split; reflexivity. Qed.

(** C5 -- a second construction.  In the scenario the first
    [ProbeController()] leaves three entries in the index of the class and
    the second one leaves six: the three of the first, then the same three
    again. *)
Theorem second_construction_appends_again :
  function_index (Demo.once Demo.registry) =
    [ {| probe := "providerA"; function := Demo.a1 |};
      {| probe := "providerA"; function := Demo.a2 |};
      {| probe := "providerB"; function := Demo.b1 |} ] /\
  function_index (Demo.twice Demo.registry) =
    function_index (Demo.once Demo.registry) ++ function_index (Demo.once Demo.registry) /\
  function_index (Demo.twice Demo.registry) <> function_index (Demo.once Demo.registry).
Proof. repeat split. discriminate. Qed.

(** C9 -- the list and the index after a second construction.  After one
    [ProbeController()] the list that [function_list] returns is the
    sequence of definitions in the index.  After the second one, with the
    same pure listing hooks, [function_list] still returns the three
    definitions of the scenario, and the index holds six: the two
    sequences differ. *)
Theorem function_list_is_not_the_doubled_index :
  function_list (Demo.once Demo.registry) =
    (Return (map function (function_index (Demo.once Demo.registry))),
     Demo.once Demo.registry) /\
  function_list (Demo.twice Demo.registry) =
    (Return [Demo.a1; Demo.a2; Demo.b1], Demo.twice Demo.registry) /\
  map function (function_index (Demo.twice Demo.registry)) =
    [Demo.a1; Demo.a2; Demo.b1; Demo.a1; Demo.a2; Demo.b1] /\
  fst (function_list (Demo.twice Demo.registry)) <>
    Return (map function (function_index (Demo.twice Demo.registry))).
Proof.
  split; [reflexivity|]. split; [reflexivity|]. split; [reflexivity|].
  discriminate.
Qed.

(** ** The properties at the deployment *)

(** [b1] has two owners in the registry [shared]; [providerB] comes first. *)
Lemma first_registered_probe_is_called_witness :
  In "b1" (advertised Demo.listing Demo.providerB) /\
  In "b1" (advertised Demo.listing Demo.providerC) /\
  exists e,
    probe e = name Demo.providerB /\
    __get_function "b1" (Demo.once Demo.shared) = (Return e, Demo.once Demo.shared) /\
    __get_probe (probe e) (Demo.once Demo.shared) =
      (Return Demo.providerB, Demo.once Demo.shared) /\
    forall args r st',
      function_call "b1" args (Demo.once Demo.shared) = (r, st') ->
      (r, st') =
        try_except (call_probe e Demo.providerB "b1" args) lookup_handler
          (Demo.once Demo.shared) /\
      r = relayed (fst (call_function Demo.providerB "b1" args
                          (world (Demo.once Demo.shared)))) /\
      world st' = snd (call_function Demo.providerB "b1" args
                         (world (Demo.once Demo.shared))) /\
      calls (trace st') =
        calls (trace (Demo.once Demo.shared)) ++ [(name Demo.providerB, "b1", args)] /\
      forall args' r' st'',
        function_call "b1" args' st' = (r', st'') ->
        (r', st'') = try_except (call_probe e Demo.providerB "b1" args') lookup_handler st' /\
        r' = relayed (fst (call_function Demo.providerB "b1" args' (world st'))) /\
        world st'' = snd (call_function Demo.providerB "b1" args' (world st')) /\
        calls (trace st'') = calls (trace st') ++ [(name Demo.providerB, "b1", args')].
Proof.
  split; [simpl; auto|]. split; [simpl; auto|].
  apply (first_registered_probe_is_called Demo.listing (Demo.once Demo.shared)
           [Demo.providerA] [Demo.providerC] Demo.providerB "b1").
  - apply demo_once_constructed.
  - exact demo_shared_pure.
  - simpl. repeat constructor; simpl; intuition discriminate.
  - reflexivity.
  - simpl. auto.
  - intros q [<-|[]]. simpl. intuition discriminate.
Defined.

(** The registry of the scenario: [a1], [a2] of one probe, [b1] of the other. *)
Lemma function_list_of_disjoint_probes_witness :
  exists l,
    function_list (Demo.once Demo.registry) = (Return l, Demo.once Demo.registry) /\
    l = List.concat (map Demo.listing Demo.registry) /\
    NoDup (map func_name l) /\
    forall p d, In p Demo.registry -> In d (Demo.listing p) -> In d l.
Proof.
  apply (function_list_of_disjoint_probes Demo.listing (Demo.once Demo.registry)).
  - exact demo_registry_pure.
  - simpl. repeat constructor; simpl; intuition discriminate.
  - simpl. repeat constructor. intros x Hx Hx'. simpl in Hx, Hx'.
    destruct Hx as [<-|[<-|[]]]; destruct Hx' as [Hx'|[]]; discriminate.
Defined.


(** The lookup of the owner of [a2], after two constructions. *)
Lemma probe_lookup_succeeds_witness :
  exists p,
    __get_probe "providerA" (Demo.twice Demo.registry) = (Return p, Demo.twice Demo.registry) /\
    name p = "providerA".
Proof.
  apply (probe_lookup_succeeds (Demo.twice Demo.registry) "a2"
           {| probe := "providerA"; function := Demo.a2 |}
           (Demo.twice Demo.registry)).
  - apply demo_twice_constructed.
  - reflexivity.
Defined.

(** The hook of [providerC] raises for [c1]; the one of [providerA] returns. *)
Lemma only_lookup_errors_are_caught_witness :
  function_call "c1" [] (Demo.once Demo.shared) =
    (Raise (OtherError "connection refused"),
     entered Demo.providerC "c1" [] 0 (Demo.once Demo.shared)) /\
  function_call "a1" [] (Demo.once Demo.shared) =
    (Return (Some "A ran a1"),
     emit (Debug (result_message "providerA" "a1" "A ran a1"))
       (entered Demo.providerA "a1" [] 1 (Demo.once Demo.shared))).
Proof.
  split.
  - apply (proj1 (only_lookup_errors_are_caught (Demo.once Demo.shared) "c1" []
                    {| probe := "providerC"; function := Demo.c1 |}
                    Demo.providerC eq_refl eq_refl)).
    + reflexivity.
    + reflexivity.
  - apply (proj2 (only_lookup_errors_are_caught (Demo.once Demo.shared) "a1" []
                    {| probe := "providerA"; function := Demo.a1 |}
                    Demo.providerA eq_refl eq_refl)).
    reflexivity.
Defined.

(** Listing the scenario twice. *)
Lemma function_list_idempotent_witness :
  exists l,
    function_list (Demo.once Demo.registry) = (Return l, Demo.once Demo.registry) /\
    bind function_list (fun l1 => bind function_list (fun l2 => ret (l1, l2)))
      (Demo.once Demo.registry) = (Return (l, l), Demo.once Demo.registry).
Proof.
  apply (function_list_idempotent Demo.listing (Demo.once Demo.registry)).
  exact demo_registry_pure.
Defined.

(** After the construction and one call of [b1], the list is still the
    index. *)
Lemma function_list_is_the_index_witness :
  fst (__init__ (Demo.fresh Demo.registry)) = Return tt /\
  function_list Demo.called =
    (Return (map function (function_index Demo.called)), Demo.called).
Proof.
  apply (function_list_is_the_index Demo.listing (Demo.fresh Demo.registry)
           (fst (__init__ (Demo.fresh Demo.registry))) (Demo.once Demo.registry)
           Demo.called).
  - reflexivity.
  - exact demo_registry_pure.
  - reflexivity.
  - reflexivity.
  - reflexivity.
Defined.


(** * The registries that go wrong, run *)

Lemma demo_providerA_pure : pure_listing Demo.listing [Demo.providerA].
Proof. intros p [<-|[]] w; reflexivity. Qed.

(** The definition that the impostor lists is served by [providerA]. *)
Example doubled_function_call :
  fst (function_call "z1" [] (Demo.once Faulty.doubled)) = Return (Some "A ran z1").
Proof. reflexivity. Qed.

(** The exception of the hook of [confused] ends as a printed line. *)
Example swallowing_function_call :
  fst (function_call "e1" [] (Demo.once Faulty.swallowing)) = Return None /\
  calls (trace (snd (function_call "e1" [] (Demo.once Faulty.swallowing)))) =
    [("confused", "e1", [])] /\
  world (snd (function_call "e1" [] (Demo.once Faulty.swallowing))) = 1.
Proof. repeat split. Qed.

(** The entry of [b1] after two constructions: first of its two copies. *)
Lemma get_function_returns_first_match_witness :
  Demo.twice Demo.registry = Demo.twice Demo.registry /\
  func_name (function {| probe := "providerB"; function := Demo.b1 |}) = "b1" /\
  exists pre post,
    function_index (Demo.twice Demo.registry) =
      pre ++ {| probe := "providerB"; function := Demo.b1 |} :: post /\
    forall e', In e' pre -> func_name (function e') <> "b1".
Proof.
  apply (get_function_returns_first_match (Demo.twice Demo.registry) "b1"
           {| probe := "providerB"; function := Demo.b1 |} (Demo.twice Demo.registry)).
  reflexivity.
Defined.

(** Of the two probes called [providerA], the lookup returns the first. *)
Lemma get_probe_returns_first_match_witness :
  Demo.once Faulty.doubled = Demo.once Faulty.doubled /\
  name Demo.providerA = "providerA" /\
  exists pre post,
    probe_index (Demo.once Faulty.doubled) = pre ++ Demo.providerA :: post /\
    forall q, In q pre -> name q <> "providerA".
Proof.
  apply (get_probe_returns_first_match (Demo.once Faulty.doubled) "providerA"
           Demo.providerA (Demo.once Faulty.doubled)).
  reflexivity.
Defined.

(** [broken] interrupts the construction after [providerA]. *)
Lemma construction_interrupted_keeps_entries_witness :
  __init__ (Demo.fresh Faulty.interrupted) =
  (Raise (OtherError "listing failed"),
   set_world 1
     (set_function_index
        (function_index (Demo.fresh Faulty.interrupted) ++
         index_of Demo.listing [Demo.providerA])
        (Demo.fresh Faulty.interrupted))).
Proof.
  apply (construction_interrupted_keeps_entries Demo.listing
           (Demo.fresh Faulty.interrupted) [Demo.providerA] [Demo.providerB] Faulty.broken).
  - reflexivity.
  - exact demo_providerA_pure.
  - reflexivity.
Defined.

(** [broken] interrupts the listing after [providerA]. *)
Lemma function_list_raises_with_hook_witness :
  function_list (Demo.fresh Faulty.interrupted) =
  (Raise (OtherError "listing failed"), set_world 1 (Demo.fresh Faulty.interrupted)).
Proof.
  apply (function_list_raises_with_hook Demo.listing
           (Demo.fresh Faulty.interrupted) [Demo.providerA] [Demo.providerB] Faulty.broken).
  - reflexivity.
  - exact demo_providerA_pure.
  - reflexivity.
Defined.


(** [a2] after two constructions. *)
Lemma callable_names_are_the_listed_names_witness :
  (exists e, __get_function "a2" (Demo.twice Demo.registry) =
             (Return e, Demo.twice Demo.registry)) <->
  (exists l, function_list (Demo.twice Demo.registry) =
             (Return l, Demo.twice Demo.registry) /\
             In "a2" (map func_name l)).
Proof.
  apply (callable_names_are_the_listed_names Demo.listing (Demo.twice Demo.registry) "a2").
  - apply demo_twice_constructed.
  - exact demo_registry_pure.
Defined.

(** [b1] after one construction and after two. *)
Lemma lookup_agrees_across_constructions_witness :
  fst (__get_function "b1" (Demo.once Demo.registry)) =
  fst (__get_function "b1" (Demo.twice Demo.registry)).
Proof.
  apply (lookup_agrees_across_constructions Demo.listing
           (Demo.once Demo.registry) (Demo.twice Demo.registry) "b1").
  - apply demo_once_constructed.
  - apply demo_twice_constructed.
  - reflexivity.
  - exact demo_registry_pure.
Defined.

(** Calling [z1] with and without the impostor in the registry. *)
Lemma shadowed_probe_is_never_called_witness :
  function_call "z1" Demo.x1
    (set_probe_index ([Demo.providerA] ++ []) (Demo.once Faulty.doubled)) =
  (fst (function_call "z1" Demo.x1 (Demo.once Faulty.doubled)),
   set_probe_index ([Demo.providerA] ++ [])
     (snd (function_call "z1" Demo.x1 (Demo.once Faulty.doubled)))).
Proof.
  apply (shadowed_probe_is_never_called (Demo.once Faulty.doubled)
           [Demo.providerA] [] Faulty.impostor "z1" Demo.x1).
  - reflexivity.
  - simpl. auto.
Defined.
